(** * whisper.cpp speech-to-text server: examples/server/server.cpp

    A shallow embedding of the request pipeline of the server
    (InitializeWhisper, ProcessAudio, EscapeDoubleQuotesAndBackslashes and
    the POST /speech_to_text handler registered in main) together with the
    properties the specification states about it.

    Conventions.
    - std::string is [string] (a sequence of 8-bit characters); the
      in-place buffer of EscapeDoubleQuotesAndBackslashes is a [list ascii]
      updated by index.
    - int32_t fields are [Z]; the code only compares them, the one narrowing
      conversion (size_t to int) is written out as [to_int].
    - float fields are [Q]; the code only copies them and writes 0.0f.
    - whisper.h and common.h are interfaces whose implementation is outside
      this translation unit: they are the classes [whisper_h] and
      [common_h]. *)

From Stdlib Require Import ZArith QArith String Ascii List Lia.
From stdpp Require Import base tactics option list strings pretty relations.

Local Open Scope Z_scope.
Local Open Scope string_scope.

(** ** Characters and string constants *)

Definition DQUOTE : ascii := "034"%char.
Definition BACKSLASH : ascii := "092"%char.
Definition NUL : ascii := "000"%char.
Definition LF : string := String "010"%char EmptyString.

(** The test shared by both loops of the escaping function: [c] is the
    double-quote character or the backslash. *)
Definition is_quote_or_backslash (c : ascii) : bool :=
  Ascii.eqb c DQUOTE || Ascii.eqb c BACKSLASH.

(** ** EscapeDoubleQuotesAndBackslashes (server.cpp 573-590) *)

(** First loop: [escaped_length] starts at [str.length()] and is incremented
    once per quote or backslash. *)
Fixpoint count_escaped_length (str : list ascii) (escaped_length : nat) : nat :=
  match str with
  | [] => escaped_length
  | c :: str' =>
      count_escaped_length str'
        (if is_quote_or_backslash c then S escaped_length else escaped_length)
  end.

(** Second loop: the body writes through [escaped[pos++]]; the state carried
    from one iteration to the next is the buffer and [pos]. *)
Definition fill_step (c : ascii) (st : list ascii * nat) : list ascii * nat :=
  let '(escaped, pos) := st in
  let '(escaped, pos) :=
    if is_quote_or_backslash c
    then (<[pos := BACKSLASH]> escaped, S pos)
    else (escaped, pos) in
  (<[pos := c]> escaped, S pos).

Fixpoint fill_escaped (str : list ascii) (st : list ascii * nat)
  : list ascii * nat :=
  match str with
  | [] => st
  | c :: str' => fill_escaped str' (fill_step c st)
  end.

Definition EscapeDoubleQuotesAndBackslashes (str : string) : string :=
  let chars := list_ascii_of_string str in
  let escaped_length := count_escaped_length chars (length chars) in
  let escaped := replicate escaped_length NUL in
  string_of_list_ascii (fill_escaped chars (escaped, 0%nat)).1.

(** The reader's side of the round trip, following the specification's
    words: one backslash is dropped before each escaped quote or backslash;
    every other character is kept. *)
Fixpoint unescape (s : string) : string :=
  match s with
  | EmptyString => EmptyString
  | String c rest =>
      if Ascii.eqb c BACKSLASH then
        match rest with
        | String d rest' =>
            if is_quote_or_backslash d
            then String d (unescape rest')
            else String c (unescape rest)
        | EmptyString => String c EmptyString
        end
      else String c (unescape rest)
  end.

(** Printable ASCII: 0x20 .. 0x7E, which includes quote and backslash. *)
Definition printable (c : ascii) : bool :=
  (32 <=? nat_of_ascii c)%nat && (nat_of_ascii c <=? 126)%nat.

Fixpoint all_printable (s : string) : bool :=
  match s with
  | EmptyString => true
  | String c rest => printable c && all_printable rest
  end.

(** A purely functional description of the escaped text, used to reason
    about the buffer-filling loops. *)
Fixpoint escaped_chars (str : list ascii) : list ascii :=
  match str with
  | [] => []
  | c :: str' =>
      if is_quote_or_backslash c
      then BACKSLASH :: c :: escaped_chars str'
      else c :: escaped_chars str'
  end.

(** ** Data model *)

Definition float : Type := Q.

(** static_cast<int>(n) for a size_t [n]: reduction to 32 bits, two's
    complement. *)
Definition to_int (n : Z) : Z := (n + 2 ^ 31) mod 2 ^ 32 - 2 ^ 31.

(** struct whisper_params (server.cpp 35-81), every field. *)
Module whisper_params.
Record t := mk {
    n_threads : Z;
    n_processors : Z;
    offset_t_ms : Z;
    offset_n : Z;
    duration_ms : Z;
    max_context : Z;
    max_len : Z;
    best_of : Z;
    beam_size : Z;
    word_thold : float;
    entropy_thold : float;
    logprob_thold : float;
    speed_up : bool;
    translate : bool;
    detect_language : bool;
    diarize : bool;
    tinydiarize : bool;
    split_on_word : bool;
    no_fallback : bool;
    output_txt : bool;
    output_vtt : bool;
    output_srt : bool;
    output_wts : bool;
    output_csv : bool;
    output_jsn : bool;
    output_lrc : bool;
    print_special : bool;
    print_colors : bool;
    print_progress : bool;
    no_timestamps : bool;
    language : string;
    prompt : string;
    font_path : string;
    model : string;
    tdrz_speaker_turn : string;
    openvino_encode_device : string;
    fname_inp : list string;
    fname_out : list string;
  }.

  (** [params.language = l] *)
Definition set_language (l : string) (p : t) : t :=
    mk (n_threads p) (n_processors p) (offset_t_ms p) (offset_n p)
       (duration_ms p) (max_context p) (max_len p) (best_of p) (beam_size p)
       (word_thold p) (entropy_thold p) (logprob_thold p)
       (speed_up p) (translate p) (detect_language p) (diarize p)
       (tinydiarize p) (split_on_word p) (no_fallback p) (output_txt p)
       (output_vtt p) (output_srt p) (output_wts p) (output_csv p)
       (output_jsn p) (output_lrc p) (print_special p) (print_colors p)
       (print_progress p) (no_timestamps p)
       l (prompt p) (font_path p) (model p) (tdrz_speaker_turn p)
       (openvino_encode_device p) (fname_inp p) (fname_out p).

  (** [params.translate = b] *)
Definition set_translate (b : bool) (p : t) : t :=
    mk (n_threads p) (n_processors p) (offset_t_ms p) (offset_n p)
       (duration_ms p) (max_context p) (max_len p) (best_of p) (beam_size p)
       (word_thold p) (entropy_thold p) (logprob_thold p)
       (speed_up p) b (detect_language p) (diarize p)
       (tinydiarize p) (split_on_word p) (no_fallback p) (output_txt p)
       (output_vtt p) (output_srt p) (output_wts p) (output_csv p)
       (output_jsn p) (output_lrc p) (print_special p) (print_colors p)
       (print_progress p) (no_timestamps p)
       (language p) (prompt p) (font_path p) (model p) (tdrz_speaker_turn p)
       (openvino_encode_device p) (fname_inp p) (fname_out p).

  (** The member initialisers of the struct; [hardware_concurrency] is
      std::thread::hardware_concurrency(), known only at run time. *)
Definition default (hardware_concurrency : Z) : t :=
    mk (Z.min 4 hardware_concurrency) 1 0 0 0 (-1) 0 2 (-1)
       (1 # 100)%Q (240 # 100)%Q (- (1 # 1))%Q
       false false false false false false false false false false false
       false false false false false false false
       "en" EmptyString
       "/System/Library/Fonts/Supplemental/Courier New Bold.ttf"
       "models/ggml-base.en.bin" " [SPEAKER_TURN]" "CPU" [] [].
End whisper_params.

Inductive whisper_sampling_strategy :=
| WHISPER_SAMPLING_GREEDY
| WHISPER_SAMPLING_BEAM_SEARCH.

(** Objects whose address the program takes.  A function-local static is
    one object for the whole process; an automatic variable is one object
    per activation of its function. *)
Inductive loc :=
| static_local (function variable : string)
| automatic_local (activation : nat) (function variable : string).

#[global] Instance loc_eq_dec : EqDecision loc.
Proof. solve_decision. Defined.

(** What a [bool*] points at; [None] for an address that holds no bool. *)
Definition memory : Type := loc -> option bool.

(** whisper_encoder_begin_callback: receives the context, the state and
    [user_data]; the callbacks of this file ignore the first two. *)
Definition whisper_encoder_begin_callback : Type :=
  memory -> loc -> option bool.

(** struct whisper_full_params (whisper.h): the fields ProcessAudio assigns
    or reads.  The remaining fields of the struct keep the values of
    whisper_full_default_params and are not represented. *)
Module whisper_full_params.
Record t := mk {
    strategy : whisper_sampling_strategy;
    print_realtime : bool;
    print_progress : bool;
    print_timestamps : bool;
    print_special : bool;
    translate : bool;
    language : string;
    detect_language : bool;
    n_threads : Z;
    n_max_text_ctx : Z;
    offset_ms : Z;
    duration_ms : Z;
    token_timestamps : bool;
    thold_pt : float;
    max_len : Z;
    split_on_word : bool;
    speed_up : bool;
    tdrz_enable : bool;
    initial_prompt : string;
    greedy_best_of : Z;
    beam_search_beam_size : Z;
    temperature_inc : float;
    entropy_thold : float;
    logprob_thold : float;
    encoder_begin_callback : option whisper_encoder_begin_callback;
    encoder_begin_callback_user_data : option loc;
  }.
End whisper_full_params.

(** whisper.h, as far as server.cpp calls it.  [whisper_context] is the
    state behind a [whisper_context*]; a call that mutates the context
    returns the new state. *)
Class whisper_h := {
  whisper_context : Type;
  whisper_lang_id : string -> Z;
  whisper_init_from_file : string -> option whisper_context;
  whisper_ctx_init_openvino_encoder :
    whisper_context -> string -> whisper_context;
  whisper_is_multilingual : whisper_context -> bool;
  whisper_full_default_params :
    whisper_sampling_strategy -> whisper_full_params.t;
  (** context, params, the memory the callback may read, samples,
      n_samples, n_processors; returns the status and the new context *)
  whisper_full_parallel :
    whisper_context -> whisper_full_params.t -> memory ->
    list float -> Z -> Z -> Z * whisper_context;
  whisper_full_n_segments : whisper_context -> Z;
  whisper_full_get_segment_text : whisper_context -> Z -> string;
}.

(** common.h: [read_wav(data, pcmf32)] returns false, or true with the
    mono samples written to [pcmf32]. *)
Class common_h := {
  read_wav : string -> option (list float);
}.

(** httplib: the parts of Request and Response the handler touches. *)
Record MultipartFormData := {
  name : string;
  content : string;
  filename : string;
  content_type : string;
}.

Record Request := {
  files : list (string * MultipartFormData);
}.

Record Response := {
  body : string;
  Content_Type : string;
}.

Definition has_file (request : Request) (key : string) : bool :=
  existsb (fun kv => String.eqb kv.1 key) (files request).

Definition get_file_value (request : Request) (key : string)
  : MultipartFormData :=
  match find (fun kv => String.eqb kv.1 key) (files request) with
  | Some kv => kv.2
  | None => Build_MultipartFormData EmptyString EmptyString EmptyString EmptyString
  end.

Definition set_content (s content_type : string) : Response :=
  {| body := s; Content_Type := content_type |}.

(** ** Observable effects *)

(** What the program writes to stderr and what it asks of the engine, in
    program order.  The informational fprintf calls of ProcessAudio
    (system_info and the processing banner, which format floats and
    machine facts) are not recorded. *)
Inductive event :=
| ev_stderr (text : string)
| ev_whisper_init_from_file (path_model : string)
| ev_whisper_ctx_init_openvino_encoder (device : string)
| ev_whisper_full_parallel (wparams : whisper_full_params.t)
    (samples : list float) (n_samples n_processors : Z).

Definition is_engine_call (e : event) : bool :=
  match e with
  | ev_stderr _ => false
  | _ => true
  end.

Definition engine_calls (tr : list event) : list event :=
  filter (fun e => is_engine_call e = true) tr.

(** ** InitializeWhisper (server.cpp 446-467) *)

(** The three places where InitializeWhisper returns nullptr. *)
Inductive init_error :=
| unknown_language
| diarize_and_tinydiarize
| context_init_failed.

(** The specification's ConfigError: the two rejections of the parameters
    themselves, as opposed to a model that fails to load. *)
Definition is_ConfigError (e : init_error) : bool :=
  match e with
  | unknown_language | diarize_and_tinydiarize => true
  | context_init_failed => false
  end.

Section Server.
Context {W : whisper_h} {C : common_h}.

Definition InitializeWhisper (params : whisper_params.t)
  : (init_error + whisper_context) * list event :=
  if negb (String.eqb (whisper_params.language params) "auto")
     && (whisper_lang_id (whisper_params.language params) =? -1)%Z
  then (inl unknown_language,
        [ev_stderr ("error: unknown language '"
                    ++ whisper_params.language params ++ "'" ++ LF)])
  else if whisper_params.diarize params && whisper_params.tinydiarize params
  then (inl diarize_and_tinydiarize,
        [ev_stderr ("error: cannot use both --diarize and --tinydiarize" ++ LF)])
  else
    match whisper_init_from_file (whisper_params.model params) with
    | None =>
        (inl context_init_failed,
         [ev_whisper_init_from_file (whisper_params.model params);
          ev_stderr ("error: failed to initialize whisper context" ++ LF)])
    | Some ctx =>
        (inr (whisper_ctx_init_openvino_encoder ctx
                (whisper_params.openvino_encode_device params)),
         [ev_whisper_init_from_file (whisper_params.model params);
          ev_whisper_ctx_init_openvino_encoder
            (whisper_params.openvino_encode_device params)])
    end.

(** The pointer the C++ function returns. *)
Definition returned_context (r : init_error + whisper_context)
  : option whisper_context :=
  match r with
  | inl _ => None
  | inr ctx => Some ctx
  end.

(** ** Process state *)

(** The objects that outlive a request: the context [main] holds a pointer
    to, [main]'s [wparams] (captured by reference by the handler), the
    static local [is_aborted] of ProcessAudio, and the effects so far. *)
Record process := {
  whisper_ctx : whisper_context;
  main_wparams : whisper_params.t;
  is_aborted : bool;
  trace : list event;
}.

Definition is_aborted_loc : loc := static_local "ProcessAudio" "is_aborted".

Definition memory_of (p : process) : memory :=
  fun l => if decide (l = is_aborted_loc) then Some (is_aborted p) else None.

Definition emit (e : event) (p : process) : process :=
  {| whisper_ctx := whisper_ctx p;
     main_wparams := main_wparams p;
     is_aborted := is_aborted p;
     trace := trace p ++ [e] |}.

Definition set_whisper_ctx (ctx : whisper_context) (p : process) : process :=
  {| whisper_ctx := ctx;
     main_wparams := main_wparams p;
     is_aborted := is_aborted p;
     trace := trace p |}.

(** [main] up to the point where the server starts listening: exit status
    1 when InitializeWhisper returns nullptr. *)
Definition main_startup (wparams : whisper_params.t) : Z + process :=
  match InitializeWhisper wparams with
  | (inl _, _) => inl 1
  | (inr ctx, tr) =>
      inr {| whisper_ctx := ctx; main_wparams := wparams;
             is_aborted := false; trace := tr |}
  end.

(** ** ProcessAudio (server.cpp 474-569) *)

(** Lines 490-499: the adjustments made to the by-value [params]. *)
Definition adjust_language (multilingual : bool) (params : whisper_params.t)
  : whisper_params.t * list event :=
  let '(params, warning) :=
    if negb multilingual
    then
      if negb (String.eqb (whisper_params.language params) "en")
         || whisper_params.translate params
      then (whisper_params.set_translate false
              (whisper_params.set_language "en" params),
            [ev_stderr ("ProcessAudio: WARNING: model is not multilingual, "
                        ++ "ignoring language and translation options" ++ LF)])
      else (params, [])
    else (params, []) in
  let params :=
    if whisper_params.detect_language params
    then whisper_params.set_language "auto" params
    else params in
  (params, warning).

(** Lines 551-554: the lambda installed as encoder_begin_callback. *)
Definition abort_callback : whisper_encoder_begin_callback :=
  fun mem user_data =>
    match mem user_data with
    | Some is_aborted => Some (negb is_aborted)
    | None => None
    end.

(** Lines 511-556: [wparams] after all the assignments. *)
Definition make_wparams (params : whisper_params.t) : whisper_full_params.t :=
  let wparams := whisper_full_default_params WHISPER_SAMPLING_GREEDY in
  {| whisper_full_params.strategy :=
       if (1 <? whisper_params.beam_size params)%Z
       then WHISPER_SAMPLING_BEAM_SEARCH else WHISPER_SAMPLING_GREEDY;
     whisper_full_params.print_realtime := false;
     whisper_full_params.print_progress := whisper_params.print_progress params;
     whisper_full_params.print_timestamps :=
       negb (whisper_params.no_timestamps params);
     whisper_full_params.print_special := whisper_params.print_special params;
     whisper_full_params.translate := whisper_params.translate params;
     whisper_full_params.language := whisper_params.language params;
     whisper_full_params.detect_language :=
       whisper_params.detect_language params;
     whisper_full_params.n_threads := whisper_params.n_threads params;
     whisper_full_params.n_max_text_ctx :=
       if (0 <=? whisper_params.max_context params)%Z
       then whisper_params.max_context params
       else whisper_full_params.n_max_text_ctx wparams;
     whisper_full_params.offset_ms := whisper_params.offset_t_ms params;
     whisper_full_params.duration_ms := whisper_params.duration_ms params;
     whisper_full_params.token_timestamps :=
       whisper_params.output_wts params
       || (0 <? whisper_params.max_len params)%Z;
     whisper_full_params.thold_pt := whisper_params.word_thold params;
     whisper_full_params.max_len :=
       if whisper_params.output_wts params
          && (whisper_params.max_len params =? 0)%Z
       then 60 else whisper_params.max_len params;
     whisper_full_params.split_on_word := whisper_params.split_on_word params;
     whisper_full_params.speed_up := whisper_params.speed_up params;
     whisper_full_params.tdrz_enable := whisper_params.tinydiarize params;
     whisper_full_params.initial_prompt := whisper_params.prompt params;
     whisper_full_params.greedy_best_of := whisper_params.best_of params;
     whisper_full_params.beam_search_beam_size :=
       whisper_params.beam_size params;
     whisper_full_params.temperature_inc :=
       if whisper_params.no_fallback params
       then 0%Q else whisper_full_params.temperature_inc wparams;
     whisper_full_params.entropy_thold := whisper_params.entropy_thold params;
     whisper_full_params.logprob_thold := whisper_params.logprob_thold params;
     whisper_full_params.encoder_begin_callback := Some abort_callback;
     whisper_full_params.encoder_begin_callback_user_data :=
       Some is_aborted_loc |}.

(** Lines 563-567: the text of segments 0 .. n_segments-1, appended in
    index order. *)
Definition collect_output (ctx : whisper_context) : string :=
  foldl (fun output i => output ++ whisper_full_get_segment_text ctx i)
        EmptyString (seqZ 0 (whisper_full_n_segments ctx)).

Definition ProcessAudio (params : whisper_params.t) (audio_data : string)
    (p : process) : option string * process :=
  match read_wav audio_data with
  | None =>
      (None,
       emit (ev_stderr ("error: failed to read WAV data ("
                        ++ pretty (Z.of_nat (String.length audio_data))
                        ++ " bytes)" ++ LF)) p)
  | Some pcmf32 =>
      let '(params, warning) :=
        adjust_language (whisper_is_multilingual (whisper_ctx p)) params in
      let p := foldl (fun p e => emit e p) p warning in
      let wparams := make_wparams params in
      let n_samples := to_int (Z.of_nat (length pcmf32)) in
      let p := emit (ev_whisper_full_parallel wparams pcmf32 n_samples
                       (whisper_params.n_processors params)) p in
      let '(status, ctx) :=
        whisper_full_parallel (whisper_ctx p) wparams (memory_of p)
          pcmf32 n_samples (whisper_params.n_processors params) in
      let p := set_whisper_ctx ctx p in
      if negb (status =? 0)%Z
      then (None, emit (ev_stderr ("failed to process audio" ++ LF)) p)
      else (Some (collect_output (whisper_ctx p)), p)
  end.

(** ** The POST /speech_to_text handler (server.cpp 645-663) *)

Definition kSpeechFileName : string := "speech".

Definition speech_to_text (request : Request) (p : process)
  : Response * process :=
  if negb (has_file request kSpeechFileName)
  then (set_content ("Cannot find speech file in the multipart data." ++ LF)
          "text/plain", p)
  else
    let speech_data := get_file_value request kSpeechFileName in
    let p := emit (ev_stderr ("Received speech file: "
                              ++ content_type speech_data ++ ", "
                              ++ pretty (Z.of_nat (String.length (content speech_data)))
                              ++ " bytes" ++ LF)) p in
    let '(result, p) := ProcessAudio (main_wparams p) (content speech_data) p in
    match result with
    | Some text =>
        (set_content ("{'result': 1, 'text': '"
                      ++ EscapeDoubleQuotesAndBackslashes text ++ "'}" ++ LF)
           "application/json", p)
    | None => (set_content ("{'result': 0}" ++ LF) "application/json", p)
    end.

(** Requests served one after the other. *)
Definition serve (requests : list Request) (p : process) : process :=
  foldl (fun p request => (speech_to_text request p).2) p requests.

End Server.

(** ** Handlers running on worker threads *)

(** httplib hands every accepted request to a worker thread that runs the
    handler to completion (specification, section 5: each inbound request
    is handled on its own thread of execution, and a handler may block for
    the whole of decode and inference).  The handler holds no lock and
    [process] is shared, so the threads interleave.  One handler is cut at
    its only long-running call, whisper_full_parallel: [speech_to_text_enter]
    is the handler up to that call, [speech_to_text_leave] is the call and
    what follows it. *)
Section Threads.
Context {W : whisper_h} {C : common_h}.

(** The locals of ProcessAudio that are live across the engine call. *)
Record job := {
  job_params : whisper_params.t;
  job_wparams : whisper_full_params.t;
  job_pcmf32 : list float;
}.

Definition speech_to_text_enter (request : Request) (p : process)
  : (Response + job) * process :=
  if negb (has_file request kSpeechFileName)
  then (inl (set_content
               ("Cannot find speech file in the multipart data." ++ LF)
               "text/plain"), p)
  else
    let speech_data := get_file_value request kSpeechFileName in
    let p := emit (ev_stderr ("Received speech file: "
                              ++ content_type speech_data ++ ", "
                              ++ pretty (Z.of_nat (String.length (content speech_data)))
                              ++ " bytes" ++ LF)) p in
    match read_wav (content speech_data) with
    | None =>
        (inl (set_content ("{'result': 0}" ++ LF) "application/json"),
         emit (ev_stderr ("error: failed to read WAV data ("
                          ++ pretty (Z.of_nat (String.length (content speech_data)))
                          ++ " bytes)" ++ LF)) p)
    | Some pcmf32 =>
        let '(params, warning) :=
          adjust_language (whisper_is_multilingual (whisper_ctx p))
            (main_wparams p) in
        let p := foldl (fun p e => emit e p) p warning in
        let wparams := make_wparams params in
        let p := emit (ev_whisper_full_parallel wparams pcmf32
                         (to_int (Z.of_nat (length pcmf32)))
                         (whisper_params.n_processors params)) p in
        (inr {| job_params := params; job_wparams := wparams;
                job_pcmf32 := pcmf32 |}, p)
    end.

Definition speech_to_text_leave (j : job) (p : process)
  : Response * process :=
  let '(status, ctx) :=
    whisper_full_parallel (whisper_ctx p) (job_wparams j) (memory_of p)
      (job_pcmf32 j) (to_int (Z.of_nat (length (job_pcmf32 j))))
      (whisper_params.n_processors (job_params j)) in
  let p := set_whisper_ctx ctx p in
  if negb (status =? 0)%Z
  then (set_content ("{'result': 0}" ++ LF) "application/json",
        emit (ev_stderr ("failed to process audio" ++ LF)) p)
  else (set_content ("{'result': 1, 'text': '"
                     ++ EscapeDoubleQuotesAndBackslashes
                          (collect_output (whisper_ctx p))
                     ++ "'}" ++ LF)
          "application/json", p).

(** The job ProcessAudio builds from its by-value [params] and the decoded
    samples (lines 490-556), and the engine call of line 558 on it. *)
Definition job_of (params : whisper_params.t) (pcmf32 : list float)
    (p : process) : job :=
  let params :=
    (adjust_language (whisper_is_multilingual (whisper_ctx p)) params).1 in
  {| job_params := params; job_wparams := make_wparams params;
     job_pcmf32 := pcmf32 |}.

Definition engine_run (j : job) (p : process) : Z * whisper_context :=
  whisper_full_parallel (whisper_ctx p) (job_wparams j) (memory_of p)
    (job_pcmf32 j) (to_int (Z.of_nat (length (job_pcmf32 j))))
    (whisper_params.n_processors (job_params j)).

Definition submission (j : job) : event :=
  ev_whisper_full_parallel (job_wparams j) (job_pcmf32 j)
    (to_int (Z.of_nat (length (job_pcmf32 j))))
    (whisper_params.n_processors (job_params j)).

Inductive thread :=
| th_received (request : Request)
| th_in_engine (j : job)
| th_responded (response : Response).

Definition after_enter (r : Response + job) : thread :=
  match r with
  | inl response => th_responded response
  | inr j => th_in_engine j
  end.

Definition server : Type := process * list thread.

Inductive step : server -> server -> Prop :=
| step_accept p ths request :
    step (p, ths) (p, (ths ++ [th_received request])%list)
| step_enter p ths i request :
    ths !! i = Some (th_received request) ->
    step (p, ths)
         ((speech_to_text_enter request p).2,
          <[i := after_enter (speech_to_text_enter request p).1]> ths)
| step_leave p ths i j :
    ths !! i = Some (th_in_engine j) ->
    step (p, ths)
         ((speech_to_text_leave j p).2,
          <[i := th_responded (speech_to_text_leave j p).1]> ths).

Definition reachable (s0 s : server) : Prop := rtc step s0 s.

Definition in_engine (t : thread) : bool :=
  match t with
  | th_in_engine _ => true
  | _ => false
  end.

(** The number of jobs executing against the shared context. *)
Definition active (ths : list thread) : nat :=
  length (filter (fun t => in_engine t = true) ths).

(** The flag object a job's encoder-begin callback is given. *)
Definition abort_flag_of (t : thread) : option loc :=
  match t with
  | th_in_engine j =>
      whisper_full_params.encoder_begin_callback_user_data (job_wparams j)
  | _ => None
  end.

(** What a job's encoder-begin callback answers when the engine calls it
    in process state [p]: [Some true] lets the encoder run. *)
Definition encoder_may_begin (j : job) (p : process) : option bool :=
  match whisper_full_params.encoder_begin_callback (job_wparams j),
        whisper_full_params.encoder_begin_callback_user_data (job_wparams j)
  with
  | Some callback, Some user_data => callback (memory_of p) user_data
  | _, _ => None
  end.

(** The job of a thread inside the engine carries the parameters of
    lines 511-556. *)
Definition built_by_make_wparams (t : thread) : Prop :=
  match t with
  | th_in_engine j => job_wparams j = make_wparams (job_params j)
  | _ => True
  end.

(** The single-flight discipline of the specification, as a property of
    the runs from [s0]. *)
Definition single_flight (s0 : server) : Prop :=
  forall s, reachable s0 s -> (active s.2 <= 1)%nat.

(** Per-job cancellation tokens, as a property of the runs from [s0]: two
    different jobs inside the engine never hold the same flag object. *)
Definition per_job_token (s0 : server) : Prop :=
  forall s i1 i2 j1 j2,
    reachable s0 s -> i1 <> i2 ->
    s.2 !! i1 = Some (th_in_engine j1) ->
    s.2 !! i2 = Some (th_in_engine j2) ->
    abort_flag_of (th_in_engine j1) <> abort_flag_of (th_in_engine j2).

End Threads.

(** ** Audio decoder *)

Inductive DecodeError :=
| malformed_header
| unsupported_channel_layout
| truncated_stream
| empty_buffer.

Section AudioDecoder.

(** Reading the container: the PCM frames (one integer sample per channel)
    or one of the container-level failures. *)
Variable read_container : string -> DecodeError + list (list Z).

(** One frame to one floating-point mono sample. *)
Variable downmix : list Z -> float.

(** Modelled from the spec: read_wav(data, pcmf32) is declared in common.h
    and defined outside server.cpp.  Section 4.2: decode(rawBytes) gives an
    AudioBuffer or a DecodeError; it accepts an uncompressed waveform
    container, downmixes to one channel, fails on a malformed header, an
    unsupported channel layout or a truncated stream, and must never accept
    an empty buffer as a success.  A degenerate buffer is read here as one
    with no samples. *)
Definition decode (rawBytes : string) : DecodeError + list float :=
  match read_container rawBytes with
  | inl e => inl e
  | inr frames =>
      match map downmix frames with
      | [] => inl empty_buffer
      | buffer => inr buffer
      end
  end.

(** Modelled from the spec: the bool-returning read_wav of common.h, on top
    of [decode]: false exactly when decode reports a DecodeError. *)
Definition read_wav_of_decode : common_h :=
  {| read_wav audio_data :=
       match decode audio_data with
       | inl _ => None
       | inr pcmf32 => Some pcmf32
       end |}.

End AudioDecoder.

(** The inference calls among [tr] all carry at least one sample. *)
Definition submits_samples (e : event) : Prop :=
  match e with
  | ev_whisper_full_parallel _ samples _ _ => samples <> []
  | _ => True
  end.

(** ** A small engine and decoder to evaluate the model on *)

Definition sample_of_char (c : ascii) : float :=
  inject_Z (Z.of_nat (nat_of_ascii c)).

Definition toy_default_params (s : whisper_sampling_strategy)
  : whisper_full_params.t :=
  whisper_full_params.mk s false false true false false "en" false
    4 16384 0 0 false (1 # 100)%Q 0 false false false EmptyString
    5 5 (2 # 10)%Q (24 # 10)%Q (- (1 # 1))%Q None None.

(** The context is the list of segment texts of the last run.  A run over
    fewer than two samples fails with status 1 and leaves the context as it
    was; any other run produces two segments. *)
Definition toy_whisper : whisper_h := {|
  whisper_context := list string;
  whisper_lang_id lang :=
    if String.eqb lang "en" then 0
    else if String.eqb lang "de" then 2 else -1;
  whisper_init_from_file path :=
    if String.eqb path "models/ggml-base.en.bin" then Some [] else None;
  whisper_ctx_init_openvino_encoder ctx _ := ctx;
  whisper_is_multilingual _ := false;
  whisper_full_default_params := toy_default_params;
  whisper_full_parallel ctx _ _ _ n_samples _ :=
    if (n_samples <? 2)%Z then (1, ctx) else (0, [" And so"; " it goes."]);
  whisper_full_n_segments ctx := Z.of_nat (length ctx);
  whisper_full_get_segment_text ctx i :=
    nth (Z.to_nat i) ctx EmptyString;
|}.

(** Every byte of a non-empty upload is one sample. *)
Definition toy_common : common_h := {|
  read_wav audio_data :=
    match audio_data with
    | EmptyString => None
    | _ => Some (map sample_of_char (list_ascii_of_string audio_data))
    end;
|}.

(** A container whose first byte is a header and whose other bytes are
    one-channel frames. *)
Definition toy_read_container (rawBytes : string)
  : DecodeError + list (list Z) :=
  match rawBytes with
  | EmptyString => inl malformed_header
  | String _ rest =>
      inr (map (fun c => [Z.of_nat (nat_of_ascii c)])
               (list_ascii_of_string rest))
  end.

Definition toy_downmix (frame : list Z) : float :=
  inject_Z (foldr Z.add 0 frame).

Definition speech_request (audio_data : string) : Request :=
  {| files := [("speech",
                {| name := "speech"; content := audio_data;
                   filename := "a.wav"; content_type := "audio/wav" |})] |}.

Definition toy_process : @process toy_whisper :=
  {| whisper_ctx := [] : @whisper_context toy_whisper;
     main_wparams := whisper_params.default 8;
     is_aborted := false;
     trace := [] |}.

(** * Properties *)

(** ** Response escaping *)

Section EscapeBuffer.
Local Open Scope list_scope.

Lemma count_escaped_length_spec (str : list ascii) (n : nat) :
  (count_escaped_length str n + length str = n + length (escaped_chars str))%nat.
Proof.
  revert n. induction str as [|c str IH]; intros n; simpl.
  - lia.
  - destruct (is_quote_or_backslash c); simpl.
    + pose proof (IH (S n)). lia.
    + pose proof (IH n). lia.
Qed.

Lemma escaped_length_exact (str : list ascii) :
  count_escaped_length str (length str) = length (escaped_chars str).
Proof. pose proof (count_escaped_length_spec str (length str)). lia. Qed.

(** One store through [escaped[pos]] when [pos] is the number of characters
    already written and room is left. *)
Lemma store_at_end (done : list ascii) (x y : ascii) (room : list ascii) :
  <[length done := x]> (done ++ y :: room) = done ++ x :: room.
Proof.
  replace (length done) with (length done + 0)%nat by lia.
  rewrite insert_app_r. reflexivity.
Qed.

(** The second loop, started with [done] already written and at least as
    much room as the escaped text needs: every store lands inside the
    buffer, so the buffer ends up holding the escaped text after [done]. *)
Lemma fill_escaped_spec (str done room : list ascii) :
  (length (escaped_chars str) <= length room)%nat ->
  fill_escaped str (done ++ room, length done) =
  (done ++ escaped_chars str ++ drop (length (escaped_chars str)) room,
   (length done + length (escaped_chars str))%nat).
Proof.
  revert done room. induction str as [|c str IH]; intros done room Hroom.
  - simpl. rewrite drop_0. f_equal. lia.
  - simpl in *. unfold fill_step.
    destruct (is_quote_or_backslash c); simpl in Hroom.
    + destruct room as [|r1 [|r2 room]]; simpl in Hroom; try lia.
      rewrite store_at_end.
      replace (done ++ BACKSLASH :: r2 :: room)
        with ((done ++ [BACKSLASH]) ++ r2 :: room) by (rewrite <- app_assoc; reflexivity).
      replace (S (length done)) with (length (done ++ [BACKSLASH]))
        by (rewrite length_app; simpl; lia).
      rewrite store_at_end.
      replace ((done ++ [BACKSLASH]) ++ c :: room)
        with ((done ++ [BACKSLASH; c]) ++ room) by (rewrite <- !app_assoc; reflexivity).
      replace (S (length (done ++ [BACKSLASH]))) with (length (done ++ [BACKSLASH; c]))
        by (rewrite !length_app; simpl; lia).
      rewrite IH by lia.
      rewrite <- !app_assoc, length_app. simpl. f_equal. lia.
    + destruct room as [|r1 room]; simpl in Hroom; try lia.
      rewrite store_at_end.
      replace (done ++ c :: room) with ((done ++ [c]) ++ room)
        by (rewrite <- app_assoc; reflexivity).
      replace (S (length done)) with (length (done ++ [c]))
        by (rewrite length_app; simpl; lia).
      rewrite IH by lia.
      rewrite <- !app_assoc, length_app. simpl. f_equal. lia.
Qed.

(** The two loops together compute [escaped_chars]; no NUL of the initial
    buffer survives and [pos] ends at [escaped_length]. *)
Lemma EscapeDoubleQuotesAndBackslashes_chars (str : string) :
  EscapeDoubleQuotesAndBackslashes str =
  string_of_list_ascii (escaped_chars (list_ascii_of_string str)).
Proof.
  unfold EscapeDoubleQuotesAndBackslashes.
  rewrite escaped_length_exact.
  pose proof (fill_escaped_spec (list_ascii_of_string str) []
                (replicate (length (escaped_chars (list_ascii_of_string str))) NUL)) as H.
  simpl in H. rewrite H by (rewrite length_replicate; lia).
  simpl. rewrite drop_ge by (rewrite length_replicate; lia).
  rewrite app_nil_r. reflexivity.
Qed.

End EscapeBuffer.

Lemma not_special_not_backslash (c : ascii) :
  is_quote_or_backslash c = false -> Ascii.eqb c BACKSLASH = false.
Proof.
  unfold is_quote_or_backslash. intros H.
  apply orb_false_iff in H. tauto.
Qed.

Lemma unescape_escaped_chars (l : list ascii) :
  unescape (string_of_list_ascii (escaped_chars l)) = string_of_list_ascii l.
Proof.
  induction l as [|c l IH]; simpl; [reflexivity|].
  destruct (is_quote_or_backslash c) eqn:Hc; simpl.
  - rewrite Hc, IH. reflexivity.
  - rewrite (not_special_not_backslash c Hc), IH. reflexivity.
Qed.

Lemma unescape_Escape (str : string) :
  unescape (EscapeDoubleQuotesAndBackslashes str) = str.
Proof.
  rewrite EscapeDoubleQuotesAndBackslashes_chars, unescape_escaped_chars.
  apply string_of_list_ascii_of_string.
Qed.

(** C5. For every string of printable characters (quote and backslash
    included), escaping with EscapeDoubleQuotesAndBackslashes and then
    unescaping, that is dropping the one backslash in front of each escaped
    quote or backslash, gives back the original string. *)
Theorem escape_unescape_roundtrip (str : string) :
  all_printable str = true ->
  unescape (EscapeDoubleQuotesAndBackslashes str) = str.
Proof. intros _. apply unescape_Escape. Qed.

Lemma escape_unescape_roundtrip_witness :
  let str := String "a"%char (String DQUOTE (String BACKSLASH (String BACKSLASH "b"))) in
  all_printable str = true /\
  EscapeDoubleQuotesAndBackslashes str =
    String "a"%char (String BACKSLASH (String DQUOTE (String BACKSLASH
      (String BACKSLASH (String BACKSLASH (String BACKSLASH "b")))))) /\
  unescape (EscapeDoubleQuotesAndBackslashes str) = str.
Proof.
  split; [reflexivity|]. split; [reflexivity|].
  apply (escape_unescape_roundtrip
           (String "a"%char (String DQUOTE (String BACKSLASH (String BACKSLASH "b"))))).
  reflexivity.
Defined.

(** ** Parameter resolution *)

Section ServerProperties.
Context {W : whisper_h} {C : common_h}.

(** C7. Parameter resolution (InitializeWhisper) fails with a ConfigError
    if and only if the language is not auto and whisper_lang_id does not
    know it, or diarize and tinydiarize are both set; when it does, nullptr
    is returned and the engine has not been invoked. *)
Theorem InitializeWhisper_ConfigError (params : whisper_params.t) :
  let rejected :=
    (whisper_params.language params <> "auto"
     /\ whisper_lang_id (whisper_params.language params) = (-1)%Z)
    \/ (whisper_params.diarize params = true
        /\ whisper_params.tinydiarize params = true) in
  ((exists e, (InitializeWhisper params).1 = inl e /\ is_ConfigError e = true)
   <-> rejected)
  /\ (rejected ->
      returned_context (InitializeWhisper params).1 = None
      /\ engine_calls (InitializeWhisper params).2 = []).
Proof.
  cbv zeta. unfold InitializeWhisper.
  destruct (String.eqb_spec (whisper_params.language params) "auto") as [Hauto|Hauto];
    destruct (Z.eqb_spec (whisper_lang_id (whisper_params.language params)) (-1))
      as [Hid|Hid];
    destruct (whisper_params.diarize params) eqn:Hd;
    destruct (whisper_params.tinydiarize params) eqn:Ht;
    simpl;
    try destruct (whisper_init_from_file (whisper_params.model params));
    simpl.
  all: split; [split|].
  all: try (intros (e & He & Hcfg); inversion He; subst; try discriminate; auto; fail).
  all: try (intros [[? ?]|[? ?]]; try congruence; try discriminate; auto; fail).
  all: try (intros _; eexists; split; reflexivity).
Qed.

(** Lines 490-499 touch [language] and [translate] only. *)
Lemma adjust_language_frame (multilingual : bool) (params : whisper_params.t) :
  let params' := (adjust_language multilingual params).1 in
  whisper_params.output_wts params' = whisper_params.output_wts params
  /\ whisper_params.max_len params' = whisper_params.max_len params
  /\ whisper_params.no_fallback params' = whisper_params.no_fallback params
  /\ whisper_params.detect_language params' = whisper_params.detect_language params
  /\ whisper_params.n_processors params' = whisper_params.n_processors params.
Proof.
  unfold adjust_language.
  destruct multilingual; simpl;
    repeat match goal with
           | |- context [if ?b then _ else _] => destruct b eqn:?; simpl
           end; auto.
Qed.

(** C6. For every configuration handed to a job, in the parameters the
    job passes to the engine: max_len is 60 if per-word output (output_wts)
    is requested and max_len is 0; token_timestamps is true whenever
    per-word output is requested or max_len > 0; and the temperature
    increment is zero if fallback is disabled. *)
Theorem job_derived_fields (multilingual : bool) (params : whisper_params.t) :
  let wparams := make_wparams (adjust_language multilingual params).1 in
  (whisper_params.output_wts params = true ->
   whisper_params.max_len params = 0%Z ->
   whisper_full_params.max_len wparams = 60%Z)
  /\ (whisper_params.output_wts params = true
      \/ (0 < whisper_params.max_len params)%Z ->
      whisper_full_params.token_timestamps wparams = true)
  /\ (whisper_params.no_fallback params = true ->
      whisper_full_params.temperature_inc wparams = 0%Q).
Proof.
  destruct (adjust_language_frame multilingual params)
    as (Hwts & Hlen & Hnf & _ & _).
  cbn zeta. unfold make_wparams; simpl.
  rewrite Hwts, Hlen, Hnf.
  split; [|split].
  - intros -> ->. reflexivity.
  - intros [->| Hpos]; [reflexivity|].
    apply orb_true_iff. right. apply Z.ltb_lt. exact Hpos.
  - intros ->. reflexivity.
Qed.

(** ** Requests without the speech field *)

(** C8. For every POST /speech_to_text request whose multipart body has no
    [speech] field, the handler answers at once with the error text and
    leaves the process as it found it: the engine is not invoked. *)
Theorem speech_to_text_without_speech (request : Request) (p : process) :
  has_file request kSpeechFileName = false ->
  speech_to_text request p =
    (set_content ("Cannot find speech file in the multipart data." ++ LF)
       "text/plain", p)
  /\ engine_calls (trace (speech_to_text request p).2) = engine_calls (trace p)
  /\ whisper_ctx (speech_to_text request p).2 = whisper_ctx p.
Proof.
  intros Hfile. unfold speech_to_text. rewrite Hfile. simpl. auto.
Qed.

(** ** ProcessAudio *)

Lemma emit_all (l : list event) (p : process) :
  foldl (fun p e => emit e p) p l =
  {| whisper_ctx := whisper_ctx p; main_wparams := main_wparams p;
     is_aborted := is_aborted p; trace := (trace p ++ l)%list |}.
Proof.
  revert p. induction l as [|e l IH]; intros [ctx wp ab tr]; simpl.
  - rewrite app_nil_r. reflexivity.
  - rewrite IH. simpl. rewrite <- app_assoc. reflexivity.
Qed.

(** ProcessAudio on an upload that read_wav accepts: the job is built, the
    engine is called once, and the status alone decides the result. *)
Lemma ProcessAudio_decoded (params : whisper_params.t) (audio_data : string)
    (p : process) (pcmf32 : list float) :
  read_wav audio_data = Some pcmf32 ->
  let j := job_of params pcmf32 p in
  let r := engine_run j p in
  let tr :=
    (trace p
     ++ (adjust_language (whisper_is_multilingual (whisper_ctx p)) params).2
     ++ [submission j])%list in
  ProcessAudio params audio_data p =
    if negb (r.1 =? 0)%Z
    then (None,
          {| whisper_ctx := r.2; main_wparams := main_wparams p;
             is_aborted := is_aborted p;
             trace := (tr ++ [ev_stderr ("failed to process audio" ++ LF)])%list |})
    else (Some (collect_output r.2),
          {| whisper_ctx := r.2; main_wparams := main_wparams p;
             is_aborted := is_aborted p; trace := tr |}).
Proof.
  intros Hread. cbv zeta.
  unfold ProcessAudio, job_of, engine_run, submission. rewrite Hread.
  destruct (adjust_language (whisper_is_multilingual (whisper_ctx p)) params)
    as [params' warning].
  rewrite emit_all. cbn [fst snd job_params job_wparams job_pcmf32].
  cbn [emit whisper_ctx main_wparams is_aborted trace].
  change (memory_of _) with (memory_of p).
  destruct (whisper_full_parallel _ _ _ _ _ _) as [status ctx].
  cbn [fst snd].
  destruct (negb (status =? 0)%Z);
    unfold emit, set_whisper_ctx;
    cbn [fst snd whisper_ctx main_wparams is_aborted trace];
    rewrite <- ?app_assoc; reflexivity.
Qed.

(** C4. For every job whose engine run ends with a non-zero status,
    ProcessAudio returns no value (std::nullopt) and so no transcript text,
    not even a partial one; a run that ends with status zero returns the
    text of all its segments: a job is all or nothing. *)
Theorem ProcessAudio_all_or_nothing (params : whisper_params.t)
    (audio_data : string) (p : process) (pcmf32 : list float) :
  read_wav audio_data = Some pcmf32 ->
  let r := engine_run (job_of params pcmf32 p) p in
  (r.1 <> 0%Z -> (ProcessAudio params audio_data p).1 = None)
  /\ (r.1 = 0%Z ->
      (ProcessAudio params audio_data p).1 = Some (collect_output r.2)).
Proof.
  intros Hread. cbv zeta.
  rewrite (ProcessAudio_decoded params audio_data p pcmf32 Hread).
  cbv zeta.
  destruct (Z.eqb_spec (engine_run (job_of params pcmf32 p) p).1 0) as [E|E];
    simpl; split; intros H; congruence.
Qed.

(** C10. For every job run against a model that is not multilingual with
    a configuration whose language is not en or whose translate flag is
    set, the job is not refused: the engine is invoked, with translate
    false and with language en, or auto when detect_language is set; and
    whatever the model, detect_language makes the effective language
    auto. *)
Theorem non_multilingual_job (params : whisper_params.t)
    (audio_data : string) (p : process) (pcmf32 : list float) :
  read_wav audio_data = Some pcmf32 ->
  let j := job_of params pcmf32 p in
  (whisper_is_multilingual (whisper_ctx p) = false ->
   whisper_params.language params <> "en"
   \/ whisper_params.translate params = true ->
   (exists warning rest,
      trace (ProcessAudio params audio_data p).2 =
        (trace p ++ [ev_stderr warning; submission j] ++ rest)%list)
   /\ whisper_full_params.translate (job_wparams j) = false
   /\ whisper_full_params.language (job_wparams j) =
        if whisper_params.detect_language params then "auto" else "en")
  /\ (whisper_params.detect_language params = true ->
      whisper_full_params.language (job_wparams j) = "auto").
Proof.
  intros Hread. cbv zeta. split.
  - intros Hmono Hopt.
    rewrite (ProcessAudio_decoded params audio_data p pcmf32 Hread).
    cbv zeta. unfold job_of, submission, adjust_language.
    rewrite Hmono. cbn [negb].
    assert (negb (String.eqb (whisper_params.language params) "en")
            || whisper_params.translate params = true) as ->.
    { destruct Hopt as [Hl| ->]; [|apply orb_true_r].
      destruct (String.eqb_spec (whisper_params.language params) "en");
        [contradiction|reflexivity]. }
    cbn [whisper_params.detect_language whisper_params.set_translate
           whisper_params.set_language].
    split; [|destruct (whisper_params.detect_language params); split; reflexivity].
    destruct (negb _); cbn [fst snd trace];
      eexists; eexists; rewrite <- ?app_assoc; reflexivity.
  - intros Hdetect. unfold job_of, adjust_language.
    destruct (negb (whisper_is_multilingual (whisper_ctx p)));
      [destruct (negb _ || _)|];
      cbn [whisper_params.detect_language whisper_params.set_translate
             whisper_params.set_language];
      rewrite Hdetect; reflexivity.
Qed.

(** ** The process-wide configuration *)

Lemma ProcessAudio_frame (params : whisper_params.t) (audio_data : string)
    (p : process) :
  main_wparams (ProcessAudio params audio_data p).2 = main_wparams p
  /\ is_aborted (ProcessAudio params audio_data p).2 = is_aborted p.
Proof.
  destruct (read_wav audio_data) as [pcmf32|] eqn:Hread.
  - rewrite (ProcessAudio_decoded params audio_data p pcmf32 Hread).
    cbv zeta. destruct (negb _); split; reflexivity.
  - unfold ProcessAudio. rewrite Hread. split; reflexivity.
Qed.

Lemma speech_to_text_frame (request : Request) (p : process) :
  main_wparams (speech_to_text request p).2 = main_wparams p
  /\ is_aborted (speech_to_text request p).2 = is_aborted p.
Proof.
  unfold speech_to_text.
  destruct (negb (has_file request kSpeechFileName)); [split; reflexivity|].
  match goal with
  | |- context [ProcessAudio ?a ?b ?q] =>
      pose proof (ProcessAudio_frame a b q) as [Hw Ha];
      destruct (ProcessAudio a b q) as [[text|] p']
  end; cbn [fst snd] in *; rewrite Hw, Ha; split; reflexivity.
Qed.

Lemma serve_frame (requests : list Request) (p : process) :
  main_wparams (serve requests p) = main_wparams p.
Proof.
  unfold serve. revert p.
  induction requests as [|request requests IH]; intros p; simpl.
  - reflexivity.
  - rewrite IH. apply speech_to_text_frame.
Qed.

(** The server starts with the configuration [main] parsed and with the
    abort flag false. *)
Lemma main_startup_process (wparams : whisper_params.t) (p : process) :
  main_startup wparams = inr p ->
  main_wparams p = wparams /\ is_aborted p = false.
Proof.
  unfold main_startup.
  destruct (InitializeWhisper wparams) as [[e|ctx] tr]; [discriminate|].
  intros [= <-]. split; reflexivity.
Qed.

(** C9. Processing a request never changes the process-wide
    configuration: ProcessAudio works on its own copy, so whatever requests
    were served before, the next request reads the configuration the
    server started with and leaves it as it is, also when the job's own
    copy is adjusted (language, translate). *)
Theorem configuration_unchanged (before : list Request) (request : Request)
    (p : process) :
  main_wparams (serve before p) = main_wparams p
  /\ main_wparams (speech_to_text request (serve before p)).2 = main_wparams p
  /\ forall params audio_data,
       main_wparams (ProcessAudio params audio_data (serve before p)).2
       = main_wparams p.
Proof.
  pose proof (serve_frame before p) as Hserve.
  split; [exact Hserve|]. split.
  - etransitivity; [apply speech_to_text_frame | exact Hserve].
  - intros params audio_data.
    etransitivity; [apply ProcessAudio_frame | exact Hserve].
Qed.

End ServerProperties.

Lemma job_derived_fields_witness :
  let params :=
    whisper_params.mk 4 1 0 0 0 (-1) 0 2 (-1)
      (1 # 100)%Q (240 # 100)%Q (- (1 # 1))%Q
      false false false false false false true false false false true
      false false false false false false false
      "en" EmptyString EmptyString "models/ggml-base.en.bin"
      " [SPEAKER_TURN]" "CPU" [] [] in
  let wparams :=
    @make_wparams toy_whisper (adjust_language false params).1 in
  whisper_full_params.max_len wparams = 60%Z
  /\ whisper_full_params.token_timestamps wparams = true
  /\ whisper_full_params.temperature_inc wparams = 0%Q.
Proof.
  cbn zeta.
  destruct (@job_derived_fields toy_whisper false
    (whisper_params.mk 4 1 0 0 0 (-1) 0 2 (-1)
      (1 # 100)%Q (240 # 100)%Q (- (1 # 1))%Q
      false false false false false false true false false false true
      false false false false false false false
      "en" EmptyString EmptyString "models/ggml-base.en.bin"
      " [SPEAKER_TURN]" "CPU" [] [])) as (Hlen & Hts & Htemp).
  split; [apply Hlen; reflexivity|].
  split; [apply Hts; left; reflexivity|].
  apply Htemp; reflexivity.
Defined.

Lemma speech_to_text_without_speech_witness :
  let request :=
    {| files := [("audio", {| name := "audio"; content := "ab";
                              filename := "a.wav";
                              content_type := "audio/wav" |})] |} in
  has_file request kSpeechFileName = false
  /\ @speech_to_text toy_whisper toy_common request toy_process =
       (set_content ("Cannot find speech file in the multipart data." ++ LF)
          "text/plain", toy_process).
Proof.
  cbn zeta. split; [reflexivity|].
  apply (@speech_to_text_without_speech toy_whisper toy_common
           {| files := [("audio", {| name := "audio"; content := "ab";
                                     filename := "a.wav";
                                     content_type := "audio/wav" |})] |}
           toy_process).
  reflexivity.
Defined.

Lemma ProcessAudio_all_or_nothing_witness :
  (@ProcessAudio toy_whisper toy_common (whisper_params.default 8) "a"
     toy_process).1 = None
  /\ (@ProcessAudio toy_whisper toy_common (whisper_params.default 8) "ab"
        toy_process).1 = Some " And so it goes.".
Proof.
  split.
  - apply (@ProcessAudio_all_or_nothing toy_whisper toy_common
             (whisper_params.default 8) "a" toy_process
             [sample_of_char "a"] eq_refl).
    vm_compute. discriminate.
  - apply (@ProcessAudio_all_or_nothing toy_whisper toy_common
             (whisper_params.default 8) "ab" toy_process
             [sample_of_char "a"; sample_of_char "b"] eq_refl).
    vm_compute. reflexivity.
Defined.

Lemma non_multilingual_job_witness :
  let params :=
    whisper_params.set_translate true
      (whisper_params.set_language "de" (whisper_params.default 8)) in
  let j := @job_of toy_whisper params [sample_of_char "a"; sample_of_char "b"]
             toy_process in
  whisper_full_params.translate (job_wparams j) = false
  /\ whisper_full_params.language (job_wparams j) = "en".
Proof.
  cbv zeta.
  destruct (@non_multilingual_job toy_whisper toy_common
              (whisper_params.set_translate true
                 (whisper_params.set_language "de" (whisper_params.default 8)))
              "ab" toy_process [sample_of_char "a"; sample_of_char "b"] eq_refl)
    as [H _].
  destruct (H eq_refl (or_intror eq_refl)) as (_ & Htr & Hlang).
  split; [exact Htr | exact Hlang].
Defined.

(** ** Handlers on worker threads *)

Section ThreadProperties.
Context {W : whisper_h} {C : common_h}.

(** The two halves put together are the handler. *)
Lemma speech_to_text_split (request : Request) (p : process) :
  speech_to_text request p =
  match speech_to_text_enter request p with
  | (inl response, p') => (response, p')
  | (inr j, p') => speech_to_text_leave j p'
  end.
Proof.
  unfold speech_to_text, speech_to_text_enter, ProcessAudio.
  destruct (negb (has_file request kSpeechFileName)); [reflexivity|].
  destruct (read_wav (content (get_file_value request kSpeechFileName)));
    [|reflexivity].
  cbn [emit whisper_ctx main_wparams is_aborted trace].
  destruct (adjust_language _ _) as [params' warning].
  unfold speech_to_text_leave. rewrite !emit_all.
  cbn [emit whisper_ctx main_wparams is_aborted trace
       job_params job_wparams job_pcmf32].
  change (memory_of _) with (memory_of p).
  destruct (whisper_full_parallel _ _ _ _ _ _) as [status ctx].
  destruct (negb (status =? 0)%Z); reflexivity.
Qed.

(** Up to the engine call the handler writes to the trace only. *)
Lemma speech_to_text_enter_frame (request : Request) (p : process) :
  let p' := (speech_to_text_enter request p).2 in
  whisper_ctx p' = whisper_ctx p
  /\ main_wparams p' = main_wparams p
  /\ is_aborted p' = is_aborted p.
Proof.
  cbv zeta. unfold speech_to_text_enter.
  destruct (negb (has_file request kSpeechFileName)); [auto|].
  destruct (read_wav _); [|auto].
  cbn [emit whisper_ctx main_wparams is_aborted trace].
  destruct (adjust_language _ _) as [params' warning].
  rewrite emit_all. auto.
Qed.

Lemma speech_to_text_leave_frame (j : job) (p : process) :
  let p' := (speech_to_text_leave j p).2 in
  main_wparams p' = main_wparams p /\ is_aborted p' = is_aborted p.
Proof.
  cbv zeta. unfold speech_to_text_leave.
  destruct (whisper_full_parallel _ _ _ _ _ _) as [status ctx].
  destruct (negb (status =? 0)%Z); auto.
Qed.

Lemma speech_to_text_enter_built (request : Request) (p : process) :
  built_by_make_wparams (after_enter (speech_to_text_enter request p).1).
Proof.
  unfold speech_to_text_enter.
  destruct (negb (has_file request kSpeechFileName)); [exact I|].
  destruct (read_wav _); [|exact I].
  destruct (adjust_language _ _) as [params' warning].
  reflexivity.
Qed.

Lemma step_invariant (s s' : server) :
  step s s' ->
  Forall built_by_make_wparams s.2 ->
  Forall built_by_make_wparams s'.2
  /\ main_wparams s'.1 = main_wparams s.1
  /\ is_aborted s'.1 = is_aborted s.1.
Proof.
  intros Hstep Hinv. destruct Hstep as [p ths request|p ths i request Hi|p ths i j Hi];
    cbn [fst snd] in *.
  - split; [|auto]. apply Forall_app. split; [exact Hinv|].
    apply Forall_singleton. exact I.
  - split.
    + apply Forall_insert; [exact Hinv|apply speech_to_text_enter_built].
    + apply speech_to_text_enter_frame.
  - split.
    + apply Forall_insert; [exact Hinv|exact I].
    + apply speech_to_text_leave_frame.
Qed.

Lemma reachable_invariant (s0 s : server) :
  reachable s0 s ->
  Forall built_by_make_wparams s0.2 ->
  Forall built_by_make_wparams s.2
  /\ main_wparams s.1 = main_wparams s0.1
  /\ is_aborted s.1 = is_aborted s0.1.
Proof.
  intros Hreach. induction Hreach as [s|s1 s2 s3 Hstep _ IH]; intros Hinv.
  - auto.
  - destruct (step_invariant s1 s2 Hstep Hinv) as (Hinv2 & Hw & Ha).
    destruct (IH Hinv2) as (Hinv3 & Hw3 & Ha3).
    split; [exact Hinv3|]. split; congruence.
Qed.

(** A request with a decodable speech upload reaches the engine call
    whatever the other threads are doing. *)
Lemma speech_to_text_enter_speech (audio_data : string)
    (pcmf32 : list float) (p : process) :
  read_wav audio_data = Some pcmf32 ->
  (speech_to_text_enter (speech_request audio_data) p).1 =
  inr (job_of (main_wparams p) pcmf32 p).
Proof.
  intros Hread. unfold speech_to_text_enter, job_of.
  change (has_file (speech_request audio_data) kSpeechFileName) with true.
  change (get_file_value (speech_request audio_data) kSpeechFileName)
    with {| name := "speech"; content := audio_data;
            filename := "a.wav"; content_type := "audio/wav" |}.
  cbn [negb content]. rewrite Hread.
  cbn [emit whisper_ctx main_wparams is_aborted trace].
  destruct (adjust_language _ _) as [params' warning]. reflexivity.
Qed.

Lemma active_replicate (n : nat) (j : job) :
  active (replicate n (th_in_engine j)) = n.
Proof.
  unfold active. induction n as [|n IH]; [reflexivity|].
  cbn [replicate]. rewrite filter_cons_True by reflexivity.
  cbn [length]. rewrite IH. reflexivity.
Qed.

(** [n] overlapping requests with the same decodable upload: all [n] jobs
    are inside whisper_full_parallel at once. *)
Lemma all_in_engine_reachable (n : nat) (audio_data : string)
    (pcmf32 : list float) (p : process) :
  read_wav audio_data = Some pcmf32 ->
  exists p',
    reachable (p, []) (p', replicate n (th_in_engine (job_of (main_wparams p) pcmf32 p)))
    /\ whisper_ctx p' = whisper_ctx p
    /\ main_wparams p' = main_wparams p.
Proof.
  intros Hread. induction n as [|n (p' & Hreach & Hctx & Hw)].
  - exists p. split; [apply rtc_refl|auto].
  - set (j := job_of (main_wparams p) pcmf32 p) in *.
    set (ths := replicate n (th_in_engine j)) in *.
    set (request := speech_request audio_data).
    destruct (speech_to_text_enter_frame request p') as (Hctx' & Hw' & _).
    exists (speech_to_text_enter request p').2.
    split; [|split; congruence].
    eapply rtc_r; [eapply rtc_r; [exact Hreach|apply (step_accept p' ths request)]|].
    assert ((ths ++ [th_received request])%list !! n = Some (th_received request)) as Hn.
    { rewrite lookup_app_r by (subst ths; rewrite length_replicate; lia).
      subst ths. rewrite length_replicate, Nat.sub_diag. reflexivity. }
    pose proof (step_enter p' _ n request Hn) as Hstep.
    unfold request in Hstep.
    rewrite (speech_to_text_enter_speech audio_data pcmf32 p' Hread) in Hstep.
    cbn [after_enter] in Hstep.
    replace (job_of (main_wparams p') pcmf32 p') with j in Hstep
      by (subst j; unfold job_of; rewrite Hctx, Hw; reflexivity).
    replace (<[n:=th_in_engine j]> (ths ++ [th_received request])%list)
      with (replicate (S n) (th_in_engine j)) in Hstep; [exact Hstep|].
    rewrite insert_app_r_alt by (subst ths; rewrite length_replicate; lia).
    subst ths. rewrite length_replicate, Nat.sub_diag. cbn [insert list_insert].
    rewrite replicate_S_end. reflexivity.
Qed.

(** C1 (as amended). The handler takes no lock and keeps no queue around
    the shared whisper_context: a request with a decodable speech upload
    enters whisper_full_parallel as soon as its own thread reaches the
    call.  The number of jobs executing against the context is bounded by
    the number of requests in flight and by nothing else: [n] overlapping
    requests can all be inside the engine at once, and a request that
    arrived later can be inside it while an earlier one has not started. *)
Theorem jobs_not_serialized (n : nat) (audio_data : string)
    (pcmf32 : list float) (p : process) :
  read_wav audio_data = Some pcmf32 ->
  (forall s, reachable (p, []) s -> (active s.2 <= length s.2)%nat)
  /\ (exists s, reachable (p, []) s /\ length s.2 = n /\ active s.2 = n)
  /\ (exists s j,
        reachable (p, []) s
        /\ s.2 = [th_received (speech_request audio_data); th_in_engine j]).
Proof.
  intros Hread. split; [|split].
  - intros s _. unfold active. apply length_filter.
  - destruct (all_in_engine_reachable n audio_data pcmf32 p Hread)
      as (p' & Hreach & _).
    eexists. split; [exact Hreach|]. cbn [snd].
    split; [apply length_replicate|apply active_replicate].
  - set (request := speech_request audio_data).
    exists ((speech_to_text_enter request p).2,
            [th_received request; th_in_engine (job_of (main_wparams p) pcmf32 p)]).
    eexists. split; [|reflexivity].
    eapply rtc_l; [apply (step_accept p [] request)|].
    eapply rtc_l; [apply (step_accept p [th_received request] request)|].
    eapply rtc_l; [|apply rtc_refl].
    pose proof (step_enter p [th_received request; th_received request] 1
                  request eq_refl) as Hstep.
    unfold request in Hstep.
    rewrite (speech_to_text_enter_speech audio_data pcmf32 p Hread) in Hstep.
    exact Hstep.
Qed.

(** C2 (as amended). The abort signal of every job is the one
    function-local static flag is_aborted of ProcessAudio: each job inside
    the engine was given the address of that flag, so the answer of its
    encoder-begin callback is decided by the process-wide flag alone, for
    all jobs alike; no step of a handler writes the flag, so from a start
    with the flag false every callback lets the encoder run. *)
Theorem abort_flag_shared (p : process) (s : server) (i : nat) (j : job) :
  reachable (p, []) s ->
  is_aborted p = false ->
  s.2 !! i = Some (th_in_engine j) ->
  abort_flag_of (th_in_engine j) = Some is_aborted_loc
  /\ (forall q : process, encoder_may_begin j q = Some (negb (is_aborted q)))
  /\ encoder_may_begin j s.1 = Some true.
Proof.
  intros Hreach Hstart Hi.
  destruct (reachable_invariant _ _ Hreach (Forall_nil_2 _))
    as (Hbuilt & _ & Hflag).
  rewrite Forall_lookup in Hbuilt. specialize (Hbuilt i _ Hi).
  cbn [built_by_make_wparams fst] in *.
  assert (forall q : process, encoder_may_begin j q = Some (negb (is_aborted q)))
    as Hcallback.
  { intros q. unfold encoder_may_begin. rewrite Hbuilt.
    cbn [make_wparams whisper_full_params.encoder_begin_callback
         whisper_full_params.encoder_begin_callback_user_data].
    unfold abort_callback, memory_of.
    destruct (decide (is_aborted_loc = is_aborted_loc)); [reflexivity|congruence]. }
  split; [cbn [abort_flag_of]; rewrite Hbuilt; reflexivity|].
  split; [exact Hcallback|].
  rewrite Hcallback, Hflag, Hstart. reflexivity.
Qed.

End ThreadProperties.

Lemma toy_two_jobs :
  exists p',
    @reachable toy_whisper toy_common (toy_process, [])
      (p', replicate 2
             (th_in_engine
                (job_of (whisper_params.default 8)
                   [sample_of_char "a"; sample_of_char "b"] toy_process))).
Proof.
  destruct (@all_in_engine_reachable toy_whisper toy_common 2 "ab"
              [sample_of_char "a"; sample_of_char "b"] toy_process eq_refl)
    as (p' & Hreach & _).
  exists p'. exact Hreach.
Qed.

(** C1 as stated fails: with two overlapping requests, two jobs execute
    against the one context at the same time. *)
Lemma single_flight_fails :
  ~ @single_flight toy_whisper toy_common (toy_process, []).
Proof.
  intros Hsf. destruct toy_two_jobs as (p' & Hreach).
  specialize (Hsf _ Hreach). cbn [snd] in Hsf.
  rewrite active_replicate in Hsf. lia.
Qed.

Lemma jobs_not_serialized_witness :
  exists s,
    @reachable toy_whisper toy_common (toy_process, []) s
    /\ length s.2 = 2%nat /\ active s.2 = 2%nat.
Proof.
  exact (proj1 (proj2 (@jobs_not_serialized toy_whisper toy_common 2 "ab"
                         [sample_of_char "a"; sample_of_char "b"]
                         toy_process eq_refl))).
Defined.

(** C2 as stated fails: two different jobs inside the engine hold the same
    flag object. *)
Lemma per_job_token_fails :
  ~ @per_job_token toy_whisper toy_common (toy_process, []).
Proof.
  intros Htoken. destruct toy_two_jobs as (p' & Hreach).
  eapply (Htoken _ 0%nat 1%nat); [exact Hreach|lia|reflexivity|reflexivity|reflexivity].
Qed.

Lemma abort_flag_shared_witness :
  exists s j,
    @reachable toy_whisper toy_common (toy_process, []) s
    /\ s.2 !! 1%nat = Some (th_in_engine j)
    /\ abort_flag_of (th_in_engine j) = Some is_aborted_loc
    /\ encoder_may_begin j s.1 = Some true.
Proof.
  destruct toy_two_jobs as (p' & Hreach).
  eexists. eexists. split; [exact Hreach|]. split; [reflexivity|].
  destruct (@abort_flag_shared toy_whisper toy_common toy_process _ 1%nat _
              Hreach eq_refl eq_refl) as (Hflag & _ & Hbegin).
  split; [exact Hflag|exact Hbegin].
Defined.

(** ** Audio decoding *)

Section SubmissionProperties.
Context {W : whisper_h} {C : common_h}.

Lemma engine_calls_stderr (tr : list event) (text : string) :
  engine_calls (tr ++ [ev_stderr text])%list = engine_calls tr.
Proof.
  unfold engine_calls. rewrite filter_app.
  rewrite filter_cons_False by (cbn; discriminate).
  rewrite filter_nil. apply app_nil_r.
Qed.

(** An upload read_wav refuses ends the request with one line on stderr. *)
Lemma ProcessAudio_rejected (params : whisper_params.t) (audio_data : string)
    (p : process) :
  read_wav audio_data = None ->
  (ProcessAudio params audio_data p).1 = None
  /\ engine_calls (trace (ProcessAudio params audio_data p).2)
     = engine_calls (trace p)
  /\ exists text,
       trace (ProcessAudio params audio_data p).2
       = (trace p ++ [ev_stderr text])%list.
Proof.
  intros Hread. unfold ProcessAudio. rewrite Hread. cbn [fst snd emit trace].
  split; [reflexivity|]. split; [apply engine_calls_stderr|].
  eexists. reflexivity.
Qed.

Lemma adjust_language_warning (multilingual : bool) (params : whisper_params.t) :
  Forall submits_samples (adjust_language multilingual params).2.
Proof.
  unfold adjust_language.
  destruct multilingual; cbn [negb]; [constructor|].
  destruct (negb _ || _); cbn [snd]; repeat constructor.
Qed.

(** ProcessAudio itself never looks at the number of samples: whatever
    read_wav accepts is what the engine is given. *)
Lemma ProcessAudio_submits_buffer (params : whisper_params.t)
    (audio_data : string) (p : process) (pcmf32 : list float) :
  read_wav audio_data = Some pcmf32 ->
  exists before rest,
    trace (ProcessAudio params audio_data p).2
    = (trace p ++ before ++ [submission (job_of params pcmf32 p)] ++ rest)%list
    /\ Forall submits_samples before /\ Forall submits_samples rest
    /\ job_pcmf32 (job_of params pcmf32 p) = pcmf32.
Proof.
  intros Hread.
  rewrite (ProcessAudio_decoded params audio_data p pcmf32 Hread). cbv zeta.
  exists (adjust_language (whisper_is_multilingual (whisper_ctx p)) params).2.
  destruct (negb _); cbn [snd trace].
  - eexists. split; [rewrite <- !app_assoc; reflexivity|].
    split; [apply adjust_language_warning|].
    split; [repeat constructor|reflexivity].
  - exists []. split; [rewrite app_nil_r; reflexivity|].
    split; [apply adjust_language_warning|].
    split; [constructor|reflexivity].
Qed.

End SubmissionProperties.

Section DecoderProperties.
Context {W : whisper_h}.
Variable read_container : string -> DecodeError + list (list Z).
Variable downmix : list Z -> float.

Lemma decode_not_empty (rawBytes : string) :
  decode read_container downmix rawBytes <> inr [].
Proof.
  unfold decode. destruct (read_container rawBytes) as [e|frames]; [discriminate|].
  destruct (map downmix frames); discriminate.
Qed.

(** C3. For every uploaded byte sequence whose decoded waveform has no
    samples, decoding returns an explicit error, not an empty buffer, and
    ProcessAudio ends without invoking the engine; and no run of
    ProcessAudio, on any upload, submits an empty buffer to the engine. *)
Theorem empty_waveform_rejected (rawBytes : string)
    (params : whisper_params.t) (p : process) :
  (read_container rawBytes = inr [] ->
   decode read_container downmix rawBytes = inl empty_buffer
   /\ (ProcessAudio (C := read_wav_of_decode read_container downmix) params rawBytes p).1 = None
   /\ engine_calls (trace (ProcessAudio (C := read_wav_of_decode read_container downmix) params rawBytes p).2)
      = engine_calls (trace p))
  /\ decode read_container downmix rawBytes <> inr []
  /\ (Forall submits_samples (trace p) ->
      Forall submits_samples
        (trace (ProcessAudio (C := read_wav_of_decode read_container downmix) params rawBytes p).2)).
Proof.
  split; [|split].
  - intros Hempty.
    assert (decode read_container downmix rawBytes = inl empty_buffer) as Hdec
      by (unfold decode; rewrite Hempty; reflexivity).
    split; [exact Hdec|].
    assert (read_wav (common_h := read_wav_of_decode read_container downmix) rawBytes = None) as Hread
      by (cbn; rewrite Hdec; reflexivity).
    destruct (ProcessAudio_rejected (C := read_wav_of_decode read_container downmix) params rawBytes p Hread)
      as (Hnone & Hcalls & _).
    split; assumption.
  - apply decode_not_empty.
  - intros Hbefore.
    destruct (read_wav (common_h := read_wav_of_decode read_container downmix) rawBytes) as [pcmf32|] eqn:Hread.
    + destruct (ProcessAudio_submits_buffer (C := read_wav_of_decode read_container downmix) params rawBytes p
                  pcmf32 Hread) as (before & rest & -> & Hb & Hr & Hpcm).
      repeat (apply Forall_app; split); try assumption.
      apply Forall_singleton. cbn [submission submits_samples]. rewrite Hpcm.
      intros ->. cbn in Hread.
      destruct (decode read_container downmix rawBytes) as [e|buffer] eqn:Hdec;
        [discriminate|].
      injection Hread as ->. exact (decode_not_empty rawBytes Hdec).
    + destruct (ProcessAudio_rejected (C := read_wav_of_decode read_container downmix) params rawBytes p Hread)
        as (_ & _ & text & ->).
      apply Forall_app. split; [assumption|]. repeat constructor.
Qed.

End DecoderProperties.

Lemma empty_waveform_rejected_witness :
  toy_read_container "R" = inr []
  /\ decode toy_read_container toy_downmix "R" = inl empty_buffer
  /\ (@ProcessAudio toy_whisper
        (read_wav_of_decode toy_read_container toy_downmix)
        (whisper_params.default 8) "R" toy_process).1 = None.
Proof.
  split; [reflexivity|].
  destruct (@empty_waveform_rejected toy_whisper toy_read_container
              toy_downmix "R" (whisper_params.default 8) toy_process)
    as (H & _ & _).
  destruct (H eq_refl) as (Hdec & Hnone & _).
  split; [exact Hdec|exact Hnone].
Defined.
